(** * The test host bridge: mock dispatcher and diff sessions

    A shallow embedding of [scripts/test-hostbridge-server.ts]: the proxy
    handler built by [createMockService] (one [switch] over the method
    name) and the diff sessions it keeps in the module-level
    [diffSessions] map and [diffCounter].

    The handlers are state transformers over the module state and the file
    system; every handler of the source ends in [callback(null, ...)] or
    [call.end()], which is what [outcome] records. *)

From stdpp Require Import gmap strings list fin_maps pretty.
From Stdlib Require Import Ascii ZArith Lia.

Open Scope string_scope.
Open Scope list_scope.

(** ** The JavaScript built-ins the handlers use *)

Module Js.

(** [s.split("\n")]: the pieces between the separators; never empty, the
    empty string gives one empty piece. *)
Fixpoint String_split (sep : ascii) (s : string) : list string :=
  match s with
  | EmptyString => [EmptyString]
  | String c s' =>
      if decide (c = sep) then EmptyString :: String_split sep s'
      else match String_split sep s' with
           | [] => [String c EmptyString]
           | piece :: pieces => String c piece :: pieces
           end
  end.

(** [a.join("\n")]: the elements with the separator between them; the
    empty array gives the empty string. *)
Fixpoint Array_join (sep : ascii) (a : list string) : string :=
  match a with
  | [] => EmptyString
  | [x] => x
  | x :: rest => x +:+ String sep (Array_join sep rest)
  end.

(** [a.splice(start, deleteCount, ...items)] on integers, as the language
    defines it: a negative [start] counts from the end, [start] is then
    clamped into [0, len], and [deleteCount] into [0, len - actualStart]. *)
Definition Array_splice {A} (a : list A) (start deleteCount : Z) (items : list A)
  : list A :=
  let len := Z.of_nat (length a) in
  let actualStart :=
    if (start <? 0)%Z then Z.max (len + start) 0 else Z.min start len in
  let actualDeleteCount := Z.min (Z.max deleteCount 0) (len - actualStart) in
  take (Z.to_nat actualStart) a ++ items
    ++ drop (Z.to_nat (actualStart + actualDeleteCount)) a.

(** [x || d] on an optional string: the empty string is falsy too. *)
Definition or_default (x : option string) (d : string) : string :=
  match x with
  | Some s => if decide (s = EmptyString) then d else s
  | None => d
  end.

(** [x ?? d]: only [undefined]/[null] give the default. *)
Definition nullish {A} (x : option A) (d : A) : A :=
  match x with Some v => v | None => d end.

End Js.

Definition LF : ascii := "010"%char.

(** ** The file system, as far as the handlers observe it

    The collaborator behind [fs.existsSync], [fs.readFileSync],
    [fs.mkdirSync] and [fs.writeFileSync]: a map from absolute paths to
    nodes. A call that throws in Node returns [None] here. A file is given
    by its text, as a read with ["utf8"] decodes it; [RawFs] below has the
    bytes. *)

Module Fs.

Inductive node :=
  | Dir
  | File (readable writable : bool) (text : string).

Abbreviation t := (gmap string node).

Definition existsSync (fs : t) (p : string) : bool :=
  bool_decide (is_Some (fs !! p)).

(** Throws on a missing path, a directory, or a file without read
    permission. *)
Definition readFileSync (fs : t) (p : string) : option string :=
  match fs !! p with
  | Some (File true _ text) => Some text
  | _ => None
  end.

(** [p], its parent, its grandparent, ... up to the root. *)
Fixpoint ancestors (dirname : string → string) (fuel : nat) (p : string)
  : list string :=
  match fuel with
  | O => []
  | S fuel' =>
      let parent := dirname p in
      p :: (if decide (parent = p) then [] else ancestors dirname fuel' parent)
  end.

(** [mkdirSync(dir, { recursive: true })]: throws when [dir] or one of its
    ancestors is a file, otherwise makes the missing ones. *)
Definition mkdirSync (dirname : string → string) (fs : t) (dir : string)
  : option t :=
  let chain := ancestors dirname (S (String.length dir)) dir in
  if forallb (λ p, match fs !! p with Some (File _ _ _) => false | _ => true end)
       chain
  then Some (foldr (λ p acc, <[p := Dir]> acc) fs chain)
  else None.

(** Throws on a directory, on a file without write permission, and on a
    new file whose parent directory is missing. *)
Definition writeFileSync (dirname : string → string) (fs : t) (p text : string)
  : option t :=
  match fs !! p with
  | Some Dir => None
  | Some (File r w _) => if w then Some (<[p := File r w text]> fs) else None
  | None =>
      match fs !! dirname p with
      | Some Dir => Some (<[p := File true true text]> fs)
      | _ => None
      end
  end.

End Fs.

(** ** Data model *)

(** [interface DiffSession] *)
Record DiffSession := {
  originalPath : string;
  content : list string;
  encoding : string;
}.

(** One element of [request.edits]; every field may be missing. *)
Record ContentEdit := {
  start_line : option Z;
  end_line : option Z;
  edit_content : option string;
}.

(** The fields of [call.request] that some handler reads. *)
Record Request := {
  req_path : option string;
  req_diff_id : option string;
  req_edits : option (list ContentEdit);
}.

(** Values passed to [callback]; the arrays the handlers build hold
    strings or nothing. *)
Inductive jsval :=
  | VStr (s : string)
  | VNum (n : Z)
  | VBool (b : bool)
  | VArr (items : list string).

Definition jsobj := list (string * jsval).

(** How a call ends: [callback(err, value)] or [call.end()]. *)
Inductive outcome :=
  | Callback (err : option string) (value : jsobj)
  | CallEnd.

(** The module-level [diffSessions] and [diffCounter], and the disk. The
    counter is a JavaScript number; it is modelled as an unbounded natural
    number, which is exact for every count below 2^53. *)
Record State := {
  diffSessions : gmap string DiffSession;
  diffCounter : N;
  disk : Fs.t;
}.

(** What the process reads from its surroundings: [process.env], [process.cwd()],
    [process.pid], [os.hostname()] and the [path] module. *)
Record Host := {
  TEST_HOSTBRIDGE_WORKSPACE_DIR : option string;
  cwd : string;
  pid : N;
  hostname : string;
  path_isAbsolute : string → bool;
  path_join : string → string → string;
  path_dirname : string → string;
}.

Definition initial (fs : Fs.t) : State :=
  {| diffSessions := ∅; diffCounter := 0; disk := fs |}.

(** ** The handlers of [createMockService] *)

Section Handlers.

Context (h : Host).

Definition set_sessions (st : State) (m : gmap string DiffSession) : State :=
  {| diffSessions := m; diffCounter := diffCounter st; disk := disk st |}.

Definition set_disk (st : State) (fs : Fs.t) : State :=
  {| diffSessions := diffSessions st; diffCounter := diffCounter st; disk := fs |}.

Definition set_content (session : DiffSession) (lines : list string) : DiffSession :=
  {| originalPath := originalPath session; content := lines;
     encoding := encoding session |}.

(** [diffSessions.get(diffId)], where [diffId] may be [undefined]. *)
Definition get_session (st : State) (diffId : option string) : option DiffSession :=
  diffId ≫= λ k, diffSessions st !! k.

(** [`diff_${process.pid}_${diffCounter}`] *)
Definition diff_id_of (counter : N) : string :=
  "diff_" +:+ pretty (pid h) +:+ "_" +:+ pretty counter.

(** [case "getWorkspacePaths"]: its local [workspaceDir]. *)
Definition getWorkspacePaths_workspaceDir : string :=
  Js.or_default (TEST_HOSTBRIDGE_WORKSPACE_DIR h) "/test-workspace".

Definition getWorkspacePaths (st : State) : State * outcome :=
  (st, Callback None [("paths", VArr [getWorkspacePaths_workspaceDir])]).

(** [case "openDiff"]: its local [workspaceDir] and [fullPath]. *)
Definition openDiff_workspaceDir : string :=
  Js.or_default (TEST_HOSTBRIDGE_WORKSPACE_DIR h) (cwd h).

Definition openDiff_fullPath (request : option Request) : string :=
  let filePath := Js.or_default (request ≫= req_path) "" in
  if path_isAbsolute h filePath then filePath
  else path_join h openDiff_workspaceDir filePath.

(** The [try] block of [openDiff]: the lines of the file, or [[]] when it
    is missing or reading throws. *)
Definition openDiff_content (fs : Fs.t) (fullPath : string) : list string :=
  if Fs.existsSync fs fullPath then
    match Fs.readFileSync fs fullPath with
    | Some text => Js.String_split LF text
    | None => []
    end
  else [].

Definition openDiff (request : option Request) (st : State) : State * outcome :=
  let fullPath := openDiff_fullPath request in
  let counter := (diffCounter st + 1)%N in
  let diffId := diff_id_of counter in
  let lines := openDiff_content (disk st) fullPath in
  let session :=
    {| originalPath := fullPath; content := lines; encoding := "utf8" |} in
  ({| diffSessions := <[diffId := session]> (diffSessions st);
      diffCounter := counter;
      disk := disk st |},
   Callback None [("diff_id", VStr diffId)]).

(** The body of the [for] loop of [applyEdits]. *)
Definition applyEdit (lines : list string) (edit : ContentEdit) : list string :=
  let startLine := Js.nullish (start_line edit) 0%Z in
  let endLine := Js.nullish (end_line edit) startLine in
  let newContent := Js.or_default (edit_content edit) "" in
  let newLines := Js.String_split LF newContent in
  Js.Array_splice lines startLine (endLine - startLine + 1)%Z newLines.

(** [for (const edit of edits) ...] on [session.content]. *)
Fixpoint applyEdits_loop (lines : list string) (edits : list ContentEdit)
  : list string :=
  match edits with
  | [] => lines
  | edit :: rest => applyEdits_loop (applyEdit lines edit) rest
  end.

(** [session.content.splice(...)] changes the session in place: the entry
    of the table under [diffId] then holds the new lines. *)
Definition store_session (m : gmap string DiffSession) (diffId : option string)
    (session : DiffSession) : gmap string DiffSession :=
  match diffId with
  | Some k => <[k := session]> m
  | None => m
  end.

Definition applyEdits (request : option Request) (st : State) : State * outcome :=
  let diffId := request ≫= req_diff_id in
  match get_session st diffId with
  | None => (st, Callback None [])
  | Some session =>
      let edits := Js.nullish (request ≫= req_edits) [] in
      let lines := applyEdits_loop (content session) edits in
      (set_sessions st
         (store_session (diffSessions st) diffId (set_content session lines)),
       Callback None [])
  end.

(** The [try] block of [saveDocument]; a throw leaves the disk as it is at
    that point. *)
Definition saveDocument_write (fs : Fs.t) (session : DiffSession) : Fs.t :=
  let dir := path_dirname h (originalPath session) in
  let made :=
    if Fs.existsSync fs dir then Some fs
    else Fs.mkdirSync (path_dirname h) fs dir in
  match made with
  | None => fs
  | Some fs1 =>
      let text := Js.Array_join LF (content session) in
      match Fs.writeFileSync (path_dirname h) fs1 (originalPath session) text with
      | Some fs2 => fs2
      | None => fs1
      end
  end.

Definition saveDocument (request : option Request) (st : State) : State * outcome :=
  let diffId := request ≫= req_diff_id in
  match get_session st diffId with
  | None => (st, Callback None [])
  | Some session =>
      (set_disk st (saveDocument_write (disk st) session), Callback None [])
  end.

(** [diffSessions.delete(diffId)] *)
Definition closeDiff (request : option Request) (st : State) : State * outcome :=
  let diffId := request ≫= req_diff_id in
  match diffId with
  | Some k => (set_sessions st (delete k (diffSessions st)), Callback None [])
  | None => (st, Callback None [])
  end.

(** The names with a [case] of their own in the [switch]. *)
Definition special_cases : list string :=
  [ "getWorkspacePaths"; "getMachineId"; "getTelemetrySettings";
    "clipboardReadText"; "getWebviewHtml"; "showTextDocument"; "openDiff";
    "getDocumentText"; "getOpenTabs"; "getVisibleTabs"; "showOpenDialogue";
    "getDiagnostics"; "applyEdits"; "saveDocument"; "closeDiff";
    "subscribeToTelemetrySettings" ].

(** The function the proxy returns for [prop]: the [switch] and the default
    after it. *)
Definition handle (prop : string) (request : option Request) (st : State)
  : State * outcome :=
  if decide (prop = "getWorkspacePaths") then getWorkspacePaths st
  else if decide (prop = "getMachineId") then
    (st, Callback None [("value", VStr ("fake-machine-id-" +:+ hostname h))])
  else if decide (prop = "getTelemetrySettings") then
    (st, Callback None [("isEnabled", VNum 2)])
  else if decide (prop = "clipboardReadText") then
    (st, Callback None [("value", VStr "")])
  else if decide (prop = "getWebviewHtml") then
    (st, Callback None [("html", VStr "<html><body>Fake Webview</body></html>")])
  else if decide (prop = "showTextDocument") then
    (st, Callback None
           [("document_path", VStr (Js.or_default (request ≫= req_path) ""));
            ("view_column", VNum 1);
            ("is_active", VBool true)])
  else if decide (prop = "openDiff") then openDiff request st
  else if decide (prop = "getDocumentText") then
    (st, Callback None [("content", VStr "")])
  else if decide (prop = "getOpenTabs" ∨ prop = "getVisibleTabs"
                  ∨ prop = "showOpenDialogue") then
    (st, Callback None [("paths", VArr [])])
  else if decide (prop = "getDiagnostics") then
    (st, Callback None [("file_diagnostics", VArr [])])
  else if decide (prop = "applyEdits") then applyEdits request st
  else if decide (prop = "saveDocument") then saveDocument request st
  else if decide (prop = "closeDiff") then closeDiff request st
  else if decide (prop = "subscribeToTelemetrySettings") then (st, CallEnd)
  else (st, Callback None []).

(** A run of the server: the calls in arrival order, each on the state the
    previous one left. *)
Fixpoint run (calls : list (string * option Request)) (st : State)
  : State * list outcome :=
  match calls with
  | [] => (st, [])
  | (prop, request) :: rest =>
      let '(st1, out) := handle prop request st in
      let '(st2, outs) := run rest st1 in
      (st2, out :: outs)
  end.

End Handlers.

(** The [diff_id] a call answered with, if it answered with one. *)
Definition returned_diff_id (out : outcome) : option string :=
  match out with
  | Callback None [("diff_id", VStr id)] => Some id
  | _ => None
  end.

Definition opened_ids (outs : list outcome) : list string :=
  omap returned_diff_id outs.

(** The states a server run can be in: the handlers act on the state, and
    the test client and other processes change the disk between calls. *)
Inductive reachable (h : Host) : State → Prop :=
  | reachable_initial fs : reachable h (initial fs)
  | reachable_handle prop request st :
      reachable h st → reachable h (handle h prop request st).1
  | reachable_disk fs st :
      reachable h st → reachable h (set_disk st fs).

(** Every key of the table came from the counter. *)
Definition keys_from_counter (h : Host) (st : State) : Prop :=
  ∀ k, is_Some (diffSessions st !! k) →
    ∃ n, k = diff_id_of h n ∧ (n ≤ diffCounter st)%N.

(** ** The edit of the specification

    Section 4.2 in its own words, to compare [applyEdit] with. *)

Module Spec.

(** [startLine] and [endLine] of an edit; [endLine] defaults to
    [startLine] when omitted. *)
Definition edit_range (edit : ContentEdit) : Z * Z :=
  let startLine := Js.nullish (start_line edit) 0%Z in
  (startLine, Js.nullish (end_line edit) startLine).

(** The lines obtained by splitting [newText] on its line breaks. *)
Definition new_lines (edit : ContentEdit) : list string :=
  Js.String_split LF (Js.or_default (edit_content edit) "").

(** Replace the lines with index in the inclusive range
    [startLine .. endLine] by [newLines]. *)
Definition replace_range (lines : list string) (startLine endLine : nat)
    (newLines : list string) : list string :=
  take startLine lines ++ newLines ++ drop (S endLine) lines.

Definition well_formed_range (edit : ContentEdit) : Prop :=
  let '(startLine, endLine) := edit_range edit in
  (0 ≤ startLine ≤ endLine)%Z.

Definition apply_edit (lines : list string) (edit : ContentEdit) : list string :=
  let '(startLine, endLine) := edit_range edit in
  replace_range lines (Z.to_nat startLine) (Z.to_nat endLine) (new_lines edit).

(** Edits strictly in the given order, each on the result of the one
    before. *)
Definition apply_edits (lines : list string) (edits : list ContentEdit)
  : list string :=
  foldl apply_edit lines edits.

(** "Best-effort clamp": the range is cut down to the valid indices
    [0 .. len - 1] before it is replaced (an empty range inserts). *)
Definition clamp (lo hi x : Z) : Z := Z.max lo (Z.min hi x).

Definition apply_edit_clamped (lines : list string) (edit : ContentEdit)
  : list string :=
  let '(startLine, endLine) := edit_range edit in
  let len := Z.of_nat (length lines) in
  let startLine' := clamp 0 len startLine in
  let endLine' := clamp (startLine' - 1) (len - 1) endLine in
  take (Z.to_nat startLine') lines ++ new_lines edit
    ++ drop (Z.to_nat (endLine' + 1)) lines.

(** How many lines of a content of [len] lines have their index in
    [startLine .. endLine]. *)
Definition range_size (len : nat) (startLine endLine : Z) : nat :=
  Z.to_nat (Z.min (endLine + 1) (Z.of_nat len) - Z.max startLine 0).

(** Open resolves a relative path against the directory that the
    workspace-path query answers with. *)
Definition resolves_against_queried_root (h : Host) (request : option Request)
    (st : State) : Prop :=
  ∃ root,
    (handle h "getWorkspacePaths" request st).2
      = Callback None [("paths", VArr [root])]
    ∧ openDiff_fullPath h request
      = path_join h root (Js.or_default (request ≫= req_path) "").

End Spec.

(** ** A host and a disk for the examples *)

Module Posix.

Definition isAbsolute (p : string) : bool :=
  match p with
  | String "/" _ => true
  | _ => false
  end.

(** [path.join] on two segments that need no normalisation. *)
Definition join (a b : string) : string := a +:+ "/" +:+ b.

(** [path.dirname] on a path without trailing slashes. *)
Definition dirname (p : string) : string :=
  match removelast (Js.String_split "/" p) with
  | [] => "."
  | parts =>
      let d := Js.Array_join "/" parts in
      if decide (d = "") then "/" else d
  end.

End Posix.

Definition example_host : Host :=
  {| TEST_HOSTBRIDGE_WORKSPACE_DIR := None;
     cwd := "/home/dev/cline";
     pid := 4242;
     hostname := "ci-runner";
     path_isAbsolute := Posix.isAbsolute;
     path_join := Posix.join;
     path_dirname := Posix.dirname |}.

Definition example_text : string := Js.Array_join LF ["a"; "b"; "c"].

Definition example_disk : Fs.t :=
  {[ "/" := Fs.Dir;
     "/home" := Fs.Dir;
     "/home/dev" := Fs.Dir;
     "/home/dev/cline" := Fs.Dir;
     "/home/dev/cline/notes.txt" := Fs.File true true example_text ]}.

Definition request_path (p : string) : option Request :=
  Some {| req_path := Some p; req_diff_id := None; req_edits := None |}.

Definition request_diff (id : string) (edits : option (list ContentEdit))
  : option Request :=
  Some {| req_path := None; req_diff_id := Some id; req_edits := edits |}.

(** The example disk after [openDiff] on ["notes.txt"]. *)
Definition example_opened : State :=
  (handle example_host "openDiff" (request_path "notes.txt")
     (initial example_disk)).1.

Definition example_id : string := "diff_4242_1".

Definition example_edit : ContentEdit :=
  {| start_line := Some 1%Z; end_line := Some 1%Z; edit_content := Some "B" |}.

Definition example_session : DiffSession :=
  {| originalPath := "/home/dev/cline/notes.txt";
     content := ["a"; "b"; "c"];
     encoding := "utf8" |}.

(** An edit on the line before the first one. *)
Definition negative_edit : ContentEdit :=
  {| start_line := Some (-1)%Z; end_line := Some (-1)%Z;
     edit_content := Some "X" |}.

(** An edit on the line past the last one. *)
Definition past_end_edit : ContentEdit :=
  {| start_line := Some 7%Z; end_line := Some 9%Z; edit_content := Some "X" |}.

(** An edit without text on lines 0 and 1. *)
Definition empty_edit : ContentEdit :=
  {| start_line := Some 0%Z; end_line := Some 1%Z; edit_content := None |}.

(** The example host with the workspace directory configured. *)
Definition configured_host : Host :=
  {| TEST_HOSTBRIDGE_WORKSPACE_DIR := Some "/srv/ws";
     cwd := "/home/dev/cline";
     pid := 4242;
     hostname := "ci-runner";
     path_isAbsolute := Posix.isAbsolute;
     path_join := Posix.join;
     path_dirname := Posix.dirname |}.

(** ** The bytes of the files

    [openDiff] reads with [readFileSync(fullPath, "utf8")] and
    [saveDocument] writes with [writeFileSync(path, content, "utf8")]: the
    handlers see the text of a file, the disk holds its bytes. *)

Module Utf8.

(** [readFileSync(path, "utf8")] decodes the bytes of the file; a text of
    the model is kept in its UTF-8 form, so decoding leaves well-formed
    bytes as they are and puts U+FFFD in place of every maximal invalid
    part. *)







End Utf8.

Module RawFs.

Inductive node :=
  | Dir
  | File (readable writable : bool) (bytes : string).

Abbreviation t := (gmap string node).



Definition existsSync (raw : t) (p : string) : bool :=
  bool_decide (is_Some (raw !! p)).

Definition mkdirSync (dirname : string → string) (raw : t) (dir : string)
  : option t :=
  let chain := Fs.ancestors dirname (S (String.length dir)) dir in
  if forallb (λ p, match raw !! p with Some (File _ _ _) => false | _ => true end)
       chain
  then Some (foldr (λ p acc, <[p := Dir]> acc) raw chain)
  else None.

(** [writeFileSync(p, text, "utf8")]: the bytes of the file become the
    UTF-8 form of the text. *)
Definition writeFileSync (dirname : string → string) (raw : t) (p text : string)
  : option t :=
  match raw !! p with
  | Some Dir => None
  | Some (File r w _) => if w then Some (<[p := File r w text]> raw) else None
  | None =>
      match raw !! dirname p with
      | Some Dir => Some (<[p := File true true text]> raw)
      | _ => None
      end
  end.

(** The [try] block of [saveDocument] on the bytes of the disk. *)
Definition saveDocument_write (dirname : string → string) (raw : t)
    (session : DiffSession) : t :=
  let dir := dirname (originalPath session) in
  let made :=
    if existsSync raw dir then Some raw else mkdirSync dirname raw dir in
  match made with
  | None => raw
  | Some raw1 =>
      let text := Js.Array_join LF (content session) in
      match writeFileSync dirname raw1 (originalPath session) text with
      | Some raw2 => raw2
      | None => raw1
      end
  end.

End RawFs.




(** ** Vocabulary for the properties of the handlers *)

(** The [case]s that read or write the module state. *)
Definition diff_methods : list string :=
  ["openDiff"; "applyEdits"; "saveDocument"; "closeDiff"].

(** A line holds no line break. *)
Fixpoint line_break_free (s : string) : bool :=
  match s with
  | EmptyString => true
  | String c s' => if decide (c = LF) then false else line_break_free s'
  end.

Definition clean_lines (lines : list string) : Prop :=
  Forall (λ line, line_break_free line = true) lines.

(** Every session of the table holds lines without line breaks. *)
Definition sessions_clean (st : State) : Prop :=
  ∀ k session, diffSessions st !! k = Some session → clean_lines (content session).

(** The text of an edit, as [applyEdit] reads it. *)
Definition edit_text (edit : ContentEdit) : string :=
  Js.or_default (edit_content edit) "".

(** An edit of the one line [i] whose text stays on one line. *)
Definition one_line_edit (len : nat) (edit : ContentEdit) (i : nat) : Prop :=
  Spec.edit_range edit = (Z.of_nat i, Z.of_nat i)
  ∧ (i < len)%nat
  ∧ line_break_free (edit_text edit) = true.

(** [saveDocument] can write [p]: a readable and writable file in a
    directory that exists, or a new file in a directory. *)
Definition writable_target (dirname : string → string) (fs : Fs.t) (p : string)
  : Prop :=
  ((∃ text, fs !! p = Some (Fs.File true true text)) ∧ is_Some (fs !! dirname p))
  ∨ (fs !! p = None ∧ fs !! dirname p = Some Fs.Dir).

Definition second_edit : ContentEdit :=
  {| start_line := Some 2%Z; end_line := None; edit_content := Some "C" |}.

Definition two_line_edit : ContentEdit :=
  {| start_line := Some 0%Z; end_line := Some 0%Z;
     edit_content := Some (Js.Array_join LF ["x"; "y"]) |}.

Definition third_edit : ContentEdit :=
  {| start_line := Some 2%Z; end_line := Some 2%Z; edit_content := Some "D" |}.

(** The example host with one more session, on a file that is not there. *)
Definition example_two_sessions : State :=
  (handle example_host "openDiff" (request_path "draft/new.txt") example_opened).1.

Definition draft_id : string := "diff_4242_2".

Definition draft_session : DiffSession :=
  {| originalPath := "/home/dev/cline/draft/new.txt";
     content := [];
     encoding := "utf8" |}.


(** ** Facts about the built-ins *)

Section JsFacts.

Lemma String_split_nonempty sep s : Js.String_split sep s ≠ [].
Proof.
  destruct s as [|c s]; simpl; [done|].
  case_decide; [done|]. by destruct (Js.String_split sep s).
Qed.

Lemma Array_join_cons sep x rest :
  rest ≠ [] → Js.Array_join sep (x :: rest) = x +:+ String sep (Js.Array_join sep rest).
Proof. by destruct rest. Qed.


(** With a start inside [0, len] the splice keeps the first [start]
    elements. *)
Lemma Array_splice_nonneg {A} (a items : list A) (start deleteCount : Z) :
  (0 ≤ start)%Z →
  Js.Array_splice a start deleteCount items
  = take (Z.to_nat start) a ++ items
      ++ drop (Z.to_nat (Z.max start (Z.min (start + deleteCount) (Z.of_nat (length a))))) a.
Proof.
  intros Hs. unfold Js.Array_splice.
  destruct (Z.ltb_spec start 0) as [|_]; [lia|].
  destruct (Z.le_gt_cases start (Z.of_nat (length a))) as [Hle|Hgt].
  - rewrite Z.min_l by done. do 3 f_equal. lia.
  - rewrite Z.min_r by lia.
    rewrite (take_ge a (Z.to_nat start)) by lia.
    rewrite (take_ge a (Z.to_nat _)) by lia.
    rewrite !drop_ge by lia. done.
Qed.

End JsFacts.

(** ** Applying edits *)

Section Edits.

Context (h : Host).

Lemma applyEdits_loop_foldl lines edits :
  applyEdits_loop lines edits = foldl applyEdit lines edits.
Proof. revert lines. induction edits as [|e es IH]; intros; simpl; auto. Qed.

(** On a range [0 <= startLine <= endLine] the splice of the handler is the
    range replacement of the specification, whatever the length. *)
Lemma applyEdit_replace_range lines edit :
  Spec.well_formed_range edit → applyEdit lines edit = Spec.apply_edit lines edit.
Proof.
  unfold Spec.well_formed_range, Spec.apply_edit, Spec.edit_range, applyEdit.
  set (s := Js.nullish (start_line edit) 0%Z).
  set (e := Js.nullish (end_line edit) s). intros [Hs He].
  rewrite Array_splice_nonneg by done. unfold Spec.replace_range, Spec.new_lines.
  do 2 f_equal.
  destruct (Z.le_gt_cases (e + 1) (Z.of_nat (length lines))).
  - f_equal. lia.
  - rewrite !drop_ge by lia. done.
Qed.

Lemma applyEdits_loop_spec lines edits :
  Forall Spec.well_formed_range edits →
  applyEdits_loop lines edits = Spec.apply_edits lines edits.
Proof.
  intros Hall. revert lines.
  induction Hall as [|e es He _ IH]; intros lines; [done|].
  cbn [applyEdits_loop]. rewrite IH, applyEdit_replace_range by done. done.
Qed.

Lemma handle_applyEdits request st :
  handle h "applyEdits" request st = applyEdits request st.
Proof. done. Qed.

Lemma applyEdits_found request st k session :
  request ≫= req_diff_id = Some k →
  diffSessions st !! k = Some session →
  applyEdits request st
  = (set_sessions st
       (<[k := set_content session
                 (applyEdits_loop (content session)
                    (Js.nullish (request ≫= req_edits) []))]> (diffSessions st)),
     Callback None []).
Proof. intros Hk Hs. unfold applyEdits, get_session. rewrite Hk. simpl. by rewrite Hs. Qed.

(** C1: for an existing session, [applyEdits] applies the edits in the
    given order, each on the lines the earlier edits left, and each edit
    replaces the inclusive range [startLine .. endLine] by the lines of its
    text split on line breaks, [endLine] defaulting to [startLine]: the
    session then stored under the ID holds exactly those lines, on the same
    path, and the call answers with the empty object. Ranges are
    zero-based with [startLine <= endLine]. *)
Theorem applyEdits_in_order request st k session :
  request ≫= req_diff_id = Some k →
  diffSessions st !! k = Some session →
  Forall Spec.well_formed_range (Js.nullish (request ≫= req_edits) []) →
  handle h "applyEdits" request st
  = ({| diffSessions :=
          <[k := {| originalPath := originalPath session;
                    content :=
                      Spec.apply_edits (content session)
                        (Js.nullish (request ≫= req_edits) []);
                    encoding := encoding session |}]> (diffSessions st);
        diffCounter := diffCounter st;
        disk := disk st |},
     Callback None [])
  ∧ ∃ session',
      get_session (handle h "applyEdits" request st).1 (Some k) = Some session'
      ∧ content session'
        = Spec.apply_edits (content session)
            (Js.nullish (request ≫= req_edits) [])
      ∧ originalPath session' = originalPath session
      ∧ encoding session' = encoding session.
Proof.
  intros Hk Hs Hall. rewrite handle_applyEdits.
  rewrite (applyEdits_found _ _ _ _ Hk Hs), applyEdits_loop_spec by done.
  split; [done|]. eexists. split.
  - unfold get_session. cbn. apply lookup_insert_eq.
  - done.
Qed.

Lemma applyEdits_content request st k session :
  request ≫= req_diff_id = Some k →
  diffSessions st !! k = Some session →
  get_session (handle h "applyEdits" request st).1 (Some k)
  = Some (set_content session
            (foldl applyEdit (content session)
               (Js.nullish (request ≫= req_edits) []))).
Proof.
  intros Hk Hs. rewrite handle_applyEdits, (applyEdits_found _ _ _ _ Hk Hs).
  simpl. rewrite lookup_insert_eq. by rewrite applyEdits_loop_foldl.
Qed.

Lemma new_lines_empty edit :
  edit_content edit = None ∨ edit_content edit = Some "" →
  Spec.new_lines edit = [""].
Proof. unfold Spec.new_lines. by intros [-> | ->]. Qed.

(** The splice of an edit whose [startLine] is not negative. *)
Lemma applyEdit_nonneg lines edit :
  (0 ≤ (Spec.edit_range edit).1)%Z →
  applyEdit lines edit
  = take (Z.to_nat (Spec.edit_range edit).1) lines ++ Spec.new_lines edit
      ++ drop (Z.to_nat (Spec.edit_range edit).1
               + Spec.range_size (length lines) (Spec.edit_range edit).1
                   (Spec.edit_range edit).2) lines.
Proof.
  unfold Spec.edit_range, applyEdit, Spec.range_size, Spec.new_lines. simpl.
  set (s := Js.nullish (start_line edit) 0%Z).
  set (e := Js.nullish (end_line edit) s). intros Hs.
  rewrite Array_splice_nonneg by done. do 2 f_equal.
  destruct (Z.le_gt_cases s (Z.of_nat (length lines))).
  - f_equal. lia.
  - rewrite !drop_ge by lia. done.
Qed.

(** C10: in an existing session, a single edit whose text is empty or
    absent puts exactly one empty line in place of its range: the new
    length is the old one, minus the lines of the range, plus one, so the
    range is never deleted outright. ([startLine] not negative; for a
    range inside the content its size is [endLine - startLine + 1].) *)
Theorem applyEdits_empty_text_one_line request st k session edit :
  request ≫= req_diff_id = Some k →
  diffSessions st !! k = Some session →
  request ≫= req_edits = Some [edit] →
  edit_content edit = None ∨ edit_content edit = Some "" →
  (0 ≤ (Spec.edit_range edit).1)%Z →
  ∃ session',
    get_session (handle h "applyEdits" request st).1 (Some k) = Some session'
    ∧ content session'
      = take (Z.to_nat (Spec.edit_range edit).1) (content session) ++ [""]
          ++ drop (Z.to_nat (Spec.edit_range edit).1
                   + Spec.range_size (length (content session))
                       (Spec.edit_range edit).1 (Spec.edit_range edit).2)
               (content session)
    ∧ length (content session')
      = (length (content session)
         - Spec.range_size (length (content session))
             (Spec.edit_range edit).1 (Spec.edit_range edit).2 + 1)%nat
    ∧ ((Spec.edit_range edit).1 ≤ (Spec.edit_range edit).2
         < Z.of_nat (length (content session)) →
       Spec.range_size (length (content session))
         (Spec.edit_range edit).1 (Spec.edit_range edit).2
       = Z.to_nat ((Spec.edit_range edit).2 - (Spec.edit_range edit).1 + 1))%Z.
Proof.
  intros Hk Hs He Hempty Hstart. eexists. split.
  { rewrite (applyEdits_content _ _ _ _ Hk Hs), He. done. }
  cbn [content set_content Js.nullish foldl].
  rewrite applyEdit_nonneg, new_lines_empty by done.
  split; [done|]. split.
  - rewrite !length_app, length_take, length_drop. cbn [length].
    unfold Spec.range_size. lia.
  - intros [? ?]. unfold Spec.range_size. lia.
Qed.

(** C6, as the code has it: for an existing session [applyEdits] answers
    with the empty object whatever the ranges of the edits are; an edit
    whose [startLine] is not negative acts on its range clamped to the
    valid indices; an edit whose [startLine] is negative is not clamped to
    the first line but placed [-startLine] lines before the end (at the
    first line when the content is shorter), where it replaces at most
    [endLine - startLine + 1] lines. *)
Theorem applyEdits_out_of_range request st k session :
  request ≫= req_diff_id = Some k →
  diffSessions st !! k = Some session →
  (handle h "applyEdits" request st).2 = Callback None []
  ∧ get_session (handle h "applyEdits" request st).1 (Some k)
    = Some (set_content session
              (foldl applyEdit (content session)
                 (Js.nullish (request ≫= req_edits) [])))
  ∧ ∀ lines edit,
      ((0 ≤ (Spec.edit_range edit).1)%Z →
       applyEdit lines edit = Spec.apply_edit_clamped lines edit)
      ∧ (((Spec.edit_range edit).1 < 0)%Z →
         let len := Z.of_nat (length lines) in
         let from := Z.max (len + (Spec.edit_range edit).1) 0 in
         let count :=
           Spec.clamp 0 (len - from)
             ((Spec.edit_range edit).2 - (Spec.edit_range edit).1 + 1) in
         applyEdit lines edit
         = take (Z.to_nat from) lines ++ Spec.new_lines edit
             ++ drop (Z.to_nat (from + count)) lines).
Proof.
  intros Hk Hs. split; [|split].
  - by rewrite handle_applyEdits, (applyEdits_found _ _ _ _ Hk Hs).
  - by apply applyEdits_content.
  - intros lines edit.
    unfold Spec.apply_edit_clamped, Spec.edit_range, applyEdit, Spec.new_lines,
      Spec.clamp. simpl.
    set (s := Js.nullish (start_line edit) 0%Z).
    set (e := Js.nullish (end_line edit) s). split; intros Hs'.
    + rewrite Array_splice_nonneg by done.
      destruct (Z.le_gt_cases s (Z.of_nat (length lines))).
      * do 2 f_equal; [f_equal; lia|]. do 2 f_equal. lia.
      * rewrite !(take_ge lines) by lia. rewrite !drop_ge by lia. done.
    + unfold Js.Array_splice.
      destruct (Z.ltb_spec s 0) as [_|]; [|lia].
      do 3 f_equal. lia.
Qed.

End Edits.

(** ** The session table *)

Section Sessions.

Context (h : Host).

Lemma handle_openDiff request st :
  handle h "openDiff" request st = openDiff h request st.
Proof. done. Qed.

Lemma handle_saveDocument request st :
  handle h "saveDocument" request st = saveDocument h request st.
Proof. done. Qed.

Lemma handle_closeDiff request st :
  handle h "closeDiff" request st = closeDiff request st.
Proof. done. Qed.

Lemma set_sessions_id st : set_sessions st (diffSessions st) = st.
Proof. by destruct st. Qed.

(** C2: with a session ID that is not in the table, [applyEdits] and
    [saveDocument] answer with the empty object and leave the whole state,
    table and sessions included, as it was. *)
Theorem unknown_session_is_noop request st :
  get_session st (request ≫= req_diff_id) = None →
  handle h "applyEdits" request st = (st, Callback None [])
  ∧ handle h "saveDocument" request st = (st, Callback None []).
Proof.
  intros Hnone. rewrite handle_applyEdits, handle_saveDocument.
  unfold applyEdits, saveDocument. cbv zeta. by rewrite Hnone.
Qed.

(** C5: [closeDiff] answers with the empty object for every request; after
    it the ID is gone, a second [closeDiff] on the same ID changes
    nothing, and so does a first one on an ID that is not in the table. *)
Theorem closeDiff_idempotent request st :
  (handle h "closeDiff" request st).2 = Callback None []
  ∧ get_session (handle h "closeDiff" request st).1 (request ≫= req_diff_id) = None
  ∧ handle h "closeDiff" request (handle h "closeDiff" request st).1
    = ((handle h "closeDiff" request st).1, Callback None [])
  ∧ (get_session st (request ≫= req_diff_id) = None →
     handle h "closeDiff" request st = (st, Callback None [])).
Proof.
  rewrite !handle_closeDiff. unfold closeDiff, get_session.
  destruct (request ≫= req_diff_id) as [k|] eqn:Hk; simpl;
    rewrite ?handle_closeDiff; unfold closeDiff; rewrite Hk;
    [|by repeat split].
  repeat split.
  - apply lookup_delete_eq.
  - unfold set_sessions; simpl. by rewrite delete_delete_eq.
  - intros Hnone. rewrite delete_id by done. by rewrite set_sessions_id.
Qed.

(** *** Session IDs *)

Lemma diff_id_of_inj n m : diff_id_of h n = diff_id_of h m → n = m.
Proof.
  unfold diff_id_of. intros Heq.
  do 3 apply (inj (String.app _)) in Heq. by apply (inj pretty) in Heq.
Qed.

(** A call either leaves the counter alone and returns no ID, or it is an
    [openDiff]: the counter goes up by one and the ID is made from it. *)
Lemma handle_counter prop request st :
  (returned_diff_id (handle h prop request st).2 = None
   ∧ diffCounter (handle h prop request st).1 = diffCounter st)
  ∨ (returned_diff_id (handle h prop request st).2
       = Some (diff_id_of h (diffCounter st + 1))
     ∧ diffCounter (handle h prop request st).1 = (diffCounter st + 1)%N).
Proof.
  unfold handle. repeat case_decide; try (by left); try (by right).
  - left. unfold applyEdits. by destruct (get_session _ _).
  - left. unfold saveDocument. by destruct (get_session _ _).
  - left. unfold closeDiff. by destruct (request ≫= req_diff_id).
Qed.

Lemma handle_keys prop request st :
  keys_from_counter h st → keys_from_counter h (handle h prop request st).1.
Proof.
  intros Hinv. unfold handle. repeat case_decide; try exact Hinv.
  - intros k. simpl. rewrite lookup_insert. case_decide as Hk.
    + intros _. exists (diffCounter st + 1)%N. split; [done|lia].
    + intros [n [-> ?]]%Hinv. exists n. split; [done|lia].
  - unfold applyEdits, get_session.
    destruct (request ≫= req_diff_id) as [k'|] eqn:Hk'; [|done].
    simpl. destruct (diffSessions st !! k') as [s|] eqn:Hs; [|done].
    intros k. simpl. rewrite lookup_insert. case_decide as Hk.
    + subst k'. intros _. apply Hinv. by rewrite Hs.
    + apply Hinv.
  - unfold saveDocument. destruct (get_session _ _); exact Hinv.
  - unfold closeDiff. destruct (request ≫= req_diff_id) as [k'|]; [|done].
    intros k. simpl. rewrite lookup_delete. case_decide.
    + by intros [? ?].
    + apply Hinv.
Qed.

Lemma reachable_keys st : reachable h st → keys_from_counter h st.
Proof.
  induction 1 as [fs|prop request st _ IH|fs st _ IH].
  - intros k. simpl. rewrite lookup_empty. by intros [? ?].
  - by apply handle_keys.
  - exact IH.
Qed.

Lemma next_id_free st :
  reachable h st → diffSessions st !! diff_id_of h (diffCounter st + 1) = None.
Proof.
  intros Hr. destruct (diffSessions st !! _) eqn:Hk; [|done].
  destruct (reachable_keys st Hr (diff_id_of h (diffCounter st + 1)))
    as [n [Hn ?]]; [by rewrite Hk|].
  apply diff_id_of_inj in Hn. lia.
Qed.

(** *** Opening *)

Lemma readFileSync_exists fs p text :
  Fs.readFileSync fs p = Some text → Fs.existsSync fs p = true.
Proof.
  unfold Fs.readFileSync, Fs.existsSync. intros Hr.
  apply bool_decide_eq_true. destruct (fs !! p); [by eexists|done].
Qed.

Lemma openDiff_content_missing fs p :
  Fs.existsSync fs p = false ∨ Fs.readFileSync fs p = None →
  openDiff_content fs p = [].
Proof.
  unfold openDiff_content. intros [-> | ->]; [done|]. by destruct (Fs.existsSync fs p).
Qed.

Lemma openDiff_content_read fs p text :
  Fs.readFileSync fs p = Some text →
  openDiff_content fs p = Js.String_split LF text.
Proof.
  intros Hr. unfold openDiff_content.
  by rewrite (readFileSync_exists _ _ _ Hr), Hr.
Qed.

(** C3: [openDiff] answers with a session ID that no session of the table
    has, and stores under it a session on the resolved path whose content
    is empty when the file is missing or cannot be read, and is the text of
    the file split on line breaks when it can. *)
Theorem openDiff_fresh_session request st :
  reachable h st →
  ∃ id session,
    handle h "openDiff" request st
    = ({| diffSessions := <[id := session]> (diffSessions st);
          diffCounter := (diffCounter st + 1)%N;
          disk := disk st |},
       Callback None [("diff_id", VStr id)])
    ∧ diffSessions st !! id = None
    ∧ originalPath session = openDiff_fullPath h request
    ∧ (Fs.existsSync (disk st) (openDiff_fullPath h request) = false
       ∨ Fs.readFileSync (disk st) (openDiff_fullPath h request) = None →
       content session = [])
    ∧ (∀ text,
         Fs.readFileSync (disk st) (openDiff_fullPath h request) = Some text →
         content session = Js.String_split LF text).
Proof.
  intros Hr. rewrite handle_openDiff. unfold openDiff.
  eexists _, _. split; [reflexivity|]. split; [by apply next_id_free|].
  split; [done|]. cbn [content]. split.
  - apply openDiff_content_missing.
  - apply openDiff_content_read.
Qed.

(** *** Saving *)

Lemma mkdir_chain_keeps_file (fs : Fs.t) chain p r w text :
  forallb (λ q, match fs !! q with Some (Fs.File _ _ _) => false | _ => true end)
    chain = true →
  fs !! p = Some (Fs.File r w text) →
  foldr (λ q acc, <[q := Fs.Dir]> acc) fs chain !! p = Some (Fs.File r w text).
Proof.
  intros Hall Hp. induction chain as [|q chain IH]; [done|].
  simpl in Hall. apply andb_prop in Hall as [Hq Hrest]. simpl.
  destruct (decide (q = p)) as [->|Hne].
  - by rewrite Hp in Hq.
  - rewrite lookup_insert_ne by done. by apply IH.
Qed.

Lemma mkdirSync_keeps_file dirname fs dir fs' p r w text :
  Fs.mkdirSync dirname fs dir = Some fs' →
  fs !! p = Some (Fs.File r w text) →
  fs' !! p = Some (Fs.File r w text).
Proof.
  unfold Fs.mkdirSync. destruct (forallb _ _) eqn:Hall; [|done].
  intros [= <-] Hp.
  by apply (mkdir_chain_keeps_file fs
              (Fs.ancestors dirname (S (String.length dir)) dir)).
Qed.


(** *** IDs over a run *)

Lemma run_cons prop request rest st :
  run h ((prop, request) :: rest) st
  = ((run h rest (handle h prop request st).1).1,
     (handle h prop request st).2 :: (run h rest (handle h prop request st).1).2).
Proof.
  cbn [run]. destruct (handle h prop request st) as [st1 out].
  cbn [fst snd]. by destruct (run h rest st1).
Qed.

(** Every ID a run returns is made from a counter value above the one the
    run started with. *)
Lemma run_ids_above calls st id :
  id ∈ opened_ids (run h calls st).2 →
  ∃ n, id = diff_id_of h n ∧ (diffCounter st < n)%N.
Proof.
  revert st. induction calls as [|[prop request] rest IH]; intros st.
  - cbn. by intros ?%elem_of_nil.
  - rewrite run_cons. cbn [snd]. unfold opened_ids. cbn [omap list_omap].
    destruct (handle_counter prop request st) as [[-> Hc]|[-> Hc]].
    + intros [n [-> ?]]%IH. exists n. split; [done|lia].
    + intros [->|[n [-> ?]]%IH]%elem_of_cons.
      * eexists. split; [done|lia].
      * exists n. split; [done|lia].
Qed.

(** C9: the IDs that the [openDiff] calls of a run return are pairwise
    different, none of them is made from a counter value that was already
    used when the run started, and so none of them is an ID that the table
    holds at that point, whether or not it is closed later. *)
Theorem session_ids_never_reused calls st :
  NoDup (opened_ids (run h calls st).2)
  ∧ (∀ n, (n ≤ diffCounter st)%N →
       diff_id_of h n ∉ opened_ids (run h calls st).2)
  ∧ (reachable h st →
     ∀ k, is_Some (diffSessions st !! k) → k ∉ opened_ids (run h calls st).2).
Proof.
  assert (∀ n, (n ≤ diffCounter st)%N →
            diff_id_of h n ∉ opened_ids (run h calls st).2) as Hold.
  { intros n Hn [m [Hm ?]]%run_ids_above. apply diff_id_of_inj in Hm. lia. }
  split; [|split; [exact Hold|]].
  - clear Hold. revert st. induction calls as [|[prop request] rest IH]; intros st.
    + cbn. constructor.
    + rewrite run_cons. cbn [snd]. unfold opened_ids. cbn [omap list_omap].
      destruct (handle_counter prop request st) as [[-> Hc]|[-> Hc]];
        [apply IH|].
      apply NoDup_cons. split; [|apply IH].
      intros [m [Hm ?]]%run_ids_above. apply diff_id_of_inj in Hm. lia.
  - intros Hr k [n [-> ?]]%(reachable_keys st Hr). by apply Hold.
Qed.

End Sessions.

(** ** The dispatcher *)

Section Dispatcher.

Context (h : Host).

(** C7: a method name without a [case] of its own gets the empty object
    and no error, whatever the request, and the state stays as it is. *)
Theorem unrecognized_method_empty_success prop request st :
  prop ∉ special_cases →
  handle h prop request st = (st, Callback None []).
Proof.
  unfold special_cases. rewrite !not_elem_of_cons. intros Hne.
  destruct_and!. unfold handle.
  repeat (case_decide; [exfalso; intuition congruence|]). done.
Qed.

(** C8, as the code has it: [openDiff] joins a relative path onto its own
    workspace directory. When [TEST_HOSTBRIDGE_WORKSPACE_DIR] is set and
    not empty, that directory is the variable's value, the one path the
    workspace-path query returns; when it is unset or empty, [openDiff]
    takes the current working directory of the process while the query
    returns ["/test-workspace"]. The joined path is absolute when that
    workspace directory is (for a [path.join] that keeps an absolute first
    segment absolute). *)
Theorem open_resolves_against_workspace_dir request st :
  path_isAbsolute h (Js.or_default (request ≫= req_path) "") = false →
  openDiff_fullPath h request
  = path_join h (openDiff_workspaceDir h) (Js.or_default (request ≫= req_path) "")
  ∧ handle h "getWorkspacePaths" request st
    = (st, Callback None [("paths", VArr [getWorkspacePaths_workspaceDir h])])
  ∧ (∀ dir, TEST_HOSTBRIDGE_WORKSPACE_DIR h = Some dir → dir ≠ "" →
       openDiff_workspaceDir h = dir ∧ getWorkspacePaths_workspaceDir h = dir)
  ∧ (TEST_HOSTBRIDGE_WORKSPACE_DIR h = None
     ∨ TEST_HOSTBRIDGE_WORKSPACE_DIR h = Some "" →
     openDiff_workspaceDir h = cwd h
     ∧ getWorkspacePaths_workspaceDir h = "/test-workspace")
  ∧ ((∀ a b, path_isAbsolute h a = true →
        path_isAbsolute h (path_join h a b) = true) →
     path_isAbsolute h (openDiff_workspaceDir h) = true →
     path_isAbsolute h (openDiff_fullPath h request) = true).
Proof.
  intros Hrel.
  assert (openDiff_fullPath h request
          = path_join h (openDiff_workspaceDir h)
              (Js.or_default (request ≫= req_path) "")) as Hfull.
  { unfold openDiff_fullPath. cbv zeta. by rewrite Hrel. }
  split; [exact Hfull|]. split; [done|]. split; [|split].
  - intros dir Hdir Hne. unfold openDiff_workspaceDir, getWorkspacePaths_workspaceDir.
    rewrite Hdir. simpl. by case_decide.
  - unfold openDiff_workspaceDir, getWorkspacePaths_workspaceDir.
    by intros [-> | ->].
  - intros Hjoin Habs. rewrite Hfull. by apply Hjoin.
Qed.

End Dispatcher.

(** ** The properties on the example host *)

Lemma example_opened_reachable : reachable example_host example_opened.
Proof. apply reachable_handle, reachable_initial. Qed.

Lemma example_opened_session :
  diffSessions example_opened !! example_id = Some example_session.
Proof. vm_compute. reflexivity. Qed.

(** The edit-and-save example of the specification: on ["a"; "b"; "c"], the
    edit of line 1 to ["B"] gives ["a"; "B"; "c"]. *)
Lemma applyEdits_in_order_witness :
  content <$> get_session example_opened (Some example_id) = Some ["a"; "b"; "c"]
  ∧ content <$> get_session
                  (handle example_host "applyEdits"
                     (request_diff example_id (Some [example_edit]))
                     example_opened).1 (Some example_id)
    = Some ["a"; "B"; "c"]
  ∧ (handle example_host "applyEdits"
       (request_diff example_id (Some [example_edit])) example_opened).2
    = Callback None [].
Proof.
  split; [vm_compute; reflexivity|].
  destruct (applyEdits_in_order example_host
              (request_diff example_id (Some [example_edit]))
              example_opened example_id example_session)
    as (Hstate & session' & Hget & Hcontent & _).
  - reflexivity.
  - exact example_opened_session.
  - repeat constructor; simpl; lia.
  - split.
    + rewrite Hget. cbn [fmap option_fmap option_map]. rewrite Hcontent.
      vm_compute. reflexivity.
    + rewrite Hstate. reflexivity.
Defined.

Lemma unknown_session_is_noop_witness :
  get_session example_opened (Some "diff_4242_7") = None
  ∧ handle example_host "applyEdits"
      (request_diff "diff_4242_7" (Some [example_edit])) example_opened
    = (example_opened, Callback None [])
  ∧ handle example_host "saveDocument"
      (request_diff "diff_4242_7" (Some [example_edit])) example_opened
    = (example_opened, Callback None []).
Proof.
  split; [vm_compute; reflexivity|].
  apply (unknown_session_is_noop example_host
           (request_diff "diff_4242_7" (Some [example_edit])) example_opened).
  vm_compute. reflexivity.
Defined.

Lemma openDiff_fresh_session_witness :
  ∃ id session,
    handle example_host "openDiff" (request_path "missing.txt") example_opened
    = ({| diffSessions := <[id := session]> (diffSessions example_opened);
          diffCounter := (diffCounter example_opened + 1)%N;
          disk := disk example_opened |},
       Callback None [("diff_id", VStr id)])
    ∧ diffSessions example_opened !! id = None
    ∧ originalPath session
      = openDiff_fullPath example_host (request_path "missing.txt")
    ∧ (Fs.existsSync (disk example_opened)
         (openDiff_fullPath example_host (request_path "missing.txt")) = false
       ∨ Fs.readFileSync (disk example_opened)
           (openDiff_fullPath example_host (request_path "missing.txt")) = None →
       content session = [])
    ∧ (∀ text,
         Fs.readFileSync (disk example_opened)
           (openDiff_fullPath example_host (request_path "missing.txt"))
         = Some text →
         content session = Js.String_split LF text).
Proof.
  apply (openDiff_fresh_session example_host (request_path "missing.txt")
           example_opened).
  exact example_opened_reachable.
Defined.

Lemma closeDiff_idempotent_witness :
  get_session example_opened (Some "diff_4242_7") = None
  ∧ handle example_host "closeDiff" (request_diff "diff_4242_7" None)
      example_opened
    = (example_opened, Callback None []).
Proof.
  split; [vm_compute; reflexivity|].
  apply (closeDiff_idempotent example_host (request_diff "diff_4242_7" None)
           example_opened).
  vm_compute. reflexivity.
Defined.

(** C6 as the specification has it fails on a negative [startLine]: on
    ["a"; "b"; "c"] the edit of line -1 to ["X"] rewrites the last line,
    where clamping the range to the valid indices puts ["X"] before the
    first one. *)
Lemma applyEdits_negative_start_not_clamped :
  content <$> get_session
                (handle example_host "applyEdits"
                   (request_diff example_id (Some [negative_edit]))
                   example_opened).1 (Some example_id)
  = Some ["a"; "b"; "X"]
  ∧ Spec.apply_edit_clamped ["a"; "b"; "c"] negative_edit = ["X"; "a"; "b"; "c"]
  ∧ applyEdit ["a"; "b"; "c"] negative_edit
    ≠ Spec.apply_edit_clamped ["a"; "b"; "c"] negative_edit.
Proof. split; [|split]; vm_compute; [reflexivity|reflexivity|discriminate]. Qed.

Lemma applyEdits_out_of_range_witness :
  (handle example_host "applyEdits"
     (request_diff example_id (Some [past_end_edit; negative_edit]))
     example_opened).2 = Callback None []
  ∧ content <$> get_session
                  (handle example_host "applyEdits"
                     (request_diff example_id (Some [past_end_edit; negative_edit]))
                     example_opened).1 (Some example_id)
    = Some ["a"; "b"; "c"; "X"]
  ∧ applyEdit ["a"; "b"; "c"] past_end_edit
    = Spec.apply_edit_clamped ["a"; "b"; "c"] past_end_edit.
Proof.
  destruct (applyEdits_out_of_range example_host
              (request_diff example_id (Some [past_end_edit; negative_edit]))
              example_opened example_id example_session eq_refl
              example_opened_session) as (Hout & Hsession & Hedit).
  split; [exact Hout|]. split.
  - rewrite Hsession. vm_compute. reflexivity.
  - apply (proj1 (Hedit ["a"; "b"; "c"] past_end_edit)). vm_compute. discriminate.
Defined.

Lemma unrecognized_method_empty_success_witness :
  ("executeCommandInTerminal" ∉ special_cases)
  ∧ handle example_host "executeCommandInTerminal" None example_opened
    = (example_opened, Callback None []).
Proof.
  assert ("executeCommandInTerminal" ∉ special_cases) as Hnot.
  { apply (bool_decide_unpack _). vm_compute. exact I. }
  split; [exact Hnot|].
  apply (unrecognized_method_empty_success example_host
           "executeCommandInTerminal" None example_opened Hnot).
Defined.

(** C8 as the specification has it fails when no workspace directory is
    configured: the query answers ["/test-workspace"], and [openDiff]
    resolves ["notes.txt"] against the working directory of the process. *)
Lemma open_root_differs_from_queried_root :
  ¬ Spec.resolves_against_queried_root example_host (request_path "notes.txt")
      (initial example_disk).
Proof.
  intros (root & Hquery & Hpath).
  vm_compute in Hquery. injection Hquery as <-.
  vm_compute in Hpath. discriminate Hpath.
Qed.

Lemma Posix_join_absolute a b :
  Posix.isAbsolute a = true → Posix.isAbsolute (Posix.join a b) = true.
Proof. destruct a as [|c a]; [discriminate|]. intros Habs. exact Habs. Qed.

Lemma open_resolves_against_workspace_dir_witness :
  Posix.isAbsolute "notes.txt" = false
  ∧ openDiff_fullPath configured_host (request_path "notes.txt")
    = "/srv/ws/notes.txt"
  ∧ handle configured_host "getWorkspacePaths" (request_path "notes.txt")
      (initial example_disk)
    = (initial example_disk, Callback None [("paths", VArr ["/srv/ws"])])
  ∧ Posix.isAbsolute
      (openDiff_fullPath configured_host (request_path "notes.txt")) = true.
Proof.
  destruct (open_resolves_against_workspace_dir configured_host
              (request_path "notes.txt") (initial example_disk) eq_refl)
    as (Hpath & Hquery & _ & _ & Habs).
  split; [reflexivity|]. split; [|split].
  - rewrite Hpath. vm_compute. reflexivity.
  - rewrite Hquery. vm_compute. reflexivity.
  - apply Habs; [exact Posix_join_absolute|reflexivity].
Defined.

Lemma session_ids_never_reused_witness :
  opened_ids
    (run example_host
       [("openDiff", request_path "notes.txt");
        ("closeDiff", request_diff "diff_4242_2" None);
        ("openDiff", request_path "notes.txt")] example_opened).2
  = ["diff_4242_2"; "diff_4242_3"]
  ∧ example_id ∉ opened_ids
      (run example_host
         [("openDiff", request_path "notes.txt");
          ("closeDiff", request_diff "diff_4242_2" None);
          ("openDiff", request_path "notes.txt")] example_opened).2.
Proof.
  split; [vm_compute; reflexivity|].
  destruct (session_ids_never_reused example_host
              [("openDiff", request_path "notes.txt");
               ("closeDiff", request_diff "diff_4242_2" None);
               ("openDiff", request_path "notes.txt")] example_opened)
    as (_ & _ & Hkeys).
  apply (Hkeys example_opened_reachable).
  rewrite example_opened_session. by eexists.
Defined.

Lemma applyEdits_empty_text_one_line_witness :
  ∃ session',
    get_session
      (handle example_host "applyEdits"
         (request_diff example_id (Some [empty_edit])) example_opened).1
      (Some example_id) = Some session'
    ∧ content session' = [""; "c"]
    ∧ length (content session') = (3 - 2 + 1)%nat.
Proof.
  destruct (applyEdits_empty_text_one_line example_host
              (request_diff example_id (Some [empty_edit]))
              example_opened example_id example_session empty_edit
              eq_refl example_opened_session eq_refl (or_introl eq_refl))
    as (session' & Hget & Hcontent & Hlength & _).
  { vm_compute. discriminate. }
  exists session'. split; [exact Hget|]. split.
  - rewrite Hcontent. reflexivity.
  - rewrite Hlength. reflexivity.
Defined.

(** ** Further properties of the handlers *)

(** *** Lines and line breaks *)

Section Lines.

Lemma String_split_clean s : clean_lines (Js.String_split LF s).
Proof.
  induction s as [|c s IH]; [by repeat constructor|].
  cbn [Js.String_split]. case_decide as Hc.
  - by constructor.
  - destruct (Js.String_split LF s) as [|piece pieces].
    + constructor; [|done]. simpl. by rewrite decide_False.
    + inversion IH; subst. constructor; [|done]. simpl. by rewrite decide_False.
Qed.

Lemma String_split_line s :
  line_break_free s = true → Js.String_split LF s = [s].
Proof.
  induction s as [|c s IH]; [done|]. simpl. case_decide; [done|].
  intros Hs. by rewrite (IH Hs).
Qed.

Lemma String_split_app_LF line rest :
  line_break_free line = true →
  Js.String_split LF (line +:+ String LF rest) = line :: Js.String_split LF rest.
Proof.
  induction line as [|c line IH]; intros Hline.
  - change ("" +:+ String LF rest) with (String LF rest).
    cbn [Js.String_split]. by rewrite decide_True.
  - change (String c line +:+ String LF rest)
      with (String c (line +:+ String LF rest)).
    simpl in Hline. cbn [Js.String_split].
    destruct (decide (c = LF)); [done|]. by rewrite (IH Hline).
Qed.

(** Splitting what [join] made gives the lines back, for at least one line
    and lines without line breaks. *)
Lemma String_split_Array_join lines :
  lines ≠ [] → clean_lines lines →
  Js.String_split LF (Js.Array_join LF lines) = lines.
Proof.
  intros Hne Hclean. induction Hclean as [|line rest Hline Hrest IH]; [done|].
  destruct rest as [|line' rest'].
  - simpl. by apply String_split_line.
  - rewrite Array_join_cons by done. rewrite String_split_app_LF by done.
    by rewrite IH.
Qed.

Lemma Array_splice_clean lines start deleteCount items :
  clean_lines lines → clean_lines items →
  clean_lines (Js.Array_splice lines start deleteCount items).
Proof.
  intros Hl Hi. unfold Js.Array_splice, clean_lines.
  rewrite !Forall_app. split; [by apply Forall_take|].
  split; [done|by apply Forall_drop].
Qed.

Lemma applyEdit_clean lines edit :
  clean_lines lines → clean_lines (applyEdit lines edit).
Proof. intros. apply Array_splice_clean; [done|apply String_split_clean]. Qed.

Lemma applyEdits_loop_clean lines edits :
  clean_lines lines → clean_lines (applyEdits_loop lines edits).
Proof.
  revert lines. induction edits as [|e es IH]; intros lines Hl; [done|].
  simpl. by apply IH, applyEdit_clean.
Qed.

End Lines.

(** *** What a call may change *)

Section Frames.

Context (h : Host).

(** X1: a method outside the diff life cycle ([openDiff], [applyEdits],
    [saveDocument], [closeDiff]) leaves the table, the counter and the
    disk as they are, whatever it answers. *)
Theorem static_methods_keep_state prop request st :
  prop ∉ diff_methods → (handle h prop request st).1 = st.
Proof.
  unfold diff_methods. rewrite !not_elem_of_cons. intros (?&?&?&?&_).
  unfold handle. repeat (case_decide; [done|]). done.
Qed.

(** X2: no call is answered with an error: every method gets
    [callback(null, value)], except [subscribeToTelemetrySettings], whose
    stream is ended at once without a reply and without a change of state. *)
Theorem every_call_answered_without_error prop request st :
  (prop ≠ "subscribeToTelemetrySettings"
   ∧ ∃ value, (handle h prop request st).2 = Callback None value)
  ∨ (prop = "subscribeToTelemetrySettings"
     ∧ handle h prop request st = (st, CallEnd)).
Proof.
  destruct (decide (prop = "subscribeToTelemetrySettings")) as [->|Hne].
  { by right. }
  left. split; [done|]. unfold handle.
  repeat (case_decide; [by eexists|]).
  case_decide.
  { unfold applyEdits. destruct (get_session _ _); by eexists. }
  case_decide.
  { unfold saveDocument. destruct (get_session _ _); by eexists. }
  case_decide.
  { unfold closeDiff. destruct (request ≫= req_diff_id); by eexists. }
  case_decide; [done|by eexists].
Qed.

(** X3: only [saveDocument] writes to the disk, and it changes nothing
    else: the table and the counter are those of before. *)
Theorem disk_written_only_by_saveDocument prop request st :
  (prop ≠ "saveDocument" → disk (handle h prop request st).1 = disk st)
  ∧ diffSessions (handle h "saveDocument" request st).1 = diffSessions st
  ∧ diffCounter (handle h "saveDocument" request st).1 = diffCounter st.
Proof.
  split; [|split].
  - intros Hne. unfold handle. repeat (case_decide; [done|]).
    case_decide; [|repeat case_decide; try done].
    + unfold applyEdits. by destruct (get_session _ _).
    + unfold closeDiff. by destruct (request ≫= req_diff_id).
  - rewrite handle_saveDocument. unfold saveDocument. by destruct (get_session _ _).
  - rewrite handle_saveDocument. unfold saveDocument. by destruct (get_session _ _).
Qed.

End Frames.

(** *** Sessions over the calls *)

Section SessionLife.

Context (h : Host).

Lemma counter_monotone prop request st :
  (diffCounter st ≤ diffCounter (handle h prop request st).1)%N.
Proof. destruct (handle_counter h prop request st) as [[_ ->]|[_ ->]]; lia. Qed.

(** What a call does to the entry of the table under [k]. *)
Lemma handle_lookup prop request st k :
  (∃ session,
     prop = "openDiff" ∧ k = diff_id_of h (diffCounter st + 1)
     ∧ diffSessions (handle h prop request st).1 !! k = Some session
     ∧ originalPath session = openDiff_fullPath h request
     ∧ content session = openDiff_content (disk st) (openDiff_fullPath h request)
     ∧ encoding session = "utf8")
  ∨ (∃ session,
       prop = "applyEdits" ∧ request ≫= req_diff_id = Some k
       ∧ diffSessions st !! k = Some session
       ∧ diffSessions (handle h prop request st).1 !! k
         = Some (set_content session
                   (applyEdits_loop (content session)
                      (Js.nullish (request ≫= req_edits) []))))
  ∨ (prop = "closeDiff" ∧ request ≫= req_diff_id = Some k
     ∧ diffSessions (handle h prop request st).1 !! k = None)
  ∨ diffSessions (handle h prop request st).1 !! k = diffSessions st !! k.
Proof.
  destruct (decide (prop = "openDiff")) as [->|Hopen].
  { rewrite handle_openDiff. unfold openDiff. cbn [fst diffSessions].
    destruct (decide (k = diff_id_of h (diffCounter st + 1))) as [->|Hk].
    - left. eexists. split; [done|]. split; [done|].
      rewrite lookup_insert_eq. by repeat split.
    - do 3 right. by rewrite lookup_insert_ne. }
  destruct (decide (prop = "applyEdits")) as [->|Hedit].
  { rewrite handle_applyEdits. unfold applyEdits, get_session.
    destruct (request ≫= req_diff_id) as [k'|] eqn:Hk'; [|by do 3 right].
    cbn [mbind option_bind].
    destruct (diffSessions st !! k') as [session|] eqn:Hs; [|by do 3 right].
    cbn [fst set_sessions diffSessions store_session].
    destruct (decide (k = k')) as [->|Hk].
    - right; left. exists session. rewrite lookup_insert_eq. by repeat split.
    - do 3 right. by rewrite lookup_insert_ne. }
  destruct (decide (prop = "closeDiff")) as [->|Hclose].
  { rewrite handle_closeDiff. unfold closeDiff.
    destruct (request ≫= req_diff_id) as [k'|] eqn:Hk'; [|by do 3 right].
    cbn [fst set_sessions diffSessions].
    destruct (decide (k = k')) as [->|Hk].
    - right; right; left. by rewrite lookup_delete_eq.
    - do 3 right. by rewrite lookup_delete_ne. }
  do 3 right.
  destruct (decide (prop = "saveDocument")) as [->|Hsave].
  { rewrite handle_saveDocument. unfold saveDocument.
    by destruct (get_session _ _). }
  cut ((handle h prop request st).1 = st); [by intros ->|].
  unfold handle. repeat (case_decide; [done|]). done.
Qed.

Lemma openDiff_content_clean fs p : clean_lines (openDiff_content fs p).
Proof.
  unfold openDiff_content. destruct (Fs.existsSync fs p); [|constructor].
  destruct (Fs.readFileSync fs p); [apply String_split_clean|constructor].
Qed.

(** X4: [applyEdits] changes one session at most: the IDs of the table stay
    the same, every session under another ID is as before, and the edited
    session keeps its path and its encoding. *)
Theorem applyEdits_touches_one_session request st :
  dom (diffSessions (handle h "applyEdits" request st).1) = dom (diffSessions st)
  ∧ (∀ k, request ≫= req_diff_id ≠ Some k →
       diffSessions (handle h "applyEdits" request st).1 !! k
       = diffSessions st !! k)
  ∧ (∀ k session, diffSessions st !! k = Some session →
       ∃ session',
         diffSessions (handle h "applyEdits" request st).1 !! k = Some session'
         ∧ originalPath session' = originalPath session
         ∧ encoding session' = encoding session).
Proof.
  split; [|split].
  - rewrite handle_applyEdits. unfold applyEdits, get_session.
    destruct (request ≫= req_diff_id) as [k|]; [|done]. cbn [mbind option_bind].
    destruct (diffSessions st !! k) eqn:Hk; [|done].
    cbn [fst set_sessions diffSessions store_session].
    apply dom_insert_lookup_L. by rewrite Hk.
  - intros k Hk.
    destruct (handle_lookup "applyEdits" request st k)
      as [(?&?&_)|[(?&_&?&_)|[(?&_)|Hsame]]]; done.
  - intros k session Hs.
    destruct (handle_lookup "applyEdits" request st k)
      as [(?&?&_)|[(s0&_&_&Hs0&Hnew)|[(?&_)|Hsame]]];
      [done| |done|rewrite Hsame; by eexists].
    rewrite Hs in Hs0. injection Hs0 as <-. rewrite Hnew. by eexists.
Qed.

(** X5: a session of a running server stays bound to its file: through
    any call it keeps its path and its encoding, unless the call is the
    [closeDiff] of its own ID, which removes it. *)
Theorem session_keeps_its_path prop request st k session :
  reachable h st →
  diffSessions st !! k = Some session →
  (∃ session',
     diffSessions (handle h prop request st).1 !! k = Some session'
     ∧ originalPath session' = originalPath session
     ∧ encoding session' = encoding session)
  ∨ (prop = "closeDiff" ∧ request ≫= req_diff_id = Some k
     ∧ diffSessions (handle h prop request st).1 !! k = None).
Proof.
  intros Hr Hs.
  destruct (handle_lookup prop request st k)
    as [(?&_&Hk&_)|[(s0&_&_&Hs0&Hnew)|[(?&?&?)|Hsame]]].
  - subst k. by rewrite (next_id_free h st Hr) in Hs.
  - rewrite Hs in Hs0. injection Hs0 as <-. left. rewrite Hnew. by eexists.
  - by right.
  - left. rewrite Hsame. by eexists.
Qed.

(** X6: in a running server every session holds lines without line
    breaks, and its encoding is ["utf8"]. *)
Theorem reachable_sessions_clean st k session :
  reachable h st →
  diffSessions st !! k = Some session →
  clean_lines (content session) ∧ encoding session = "utf8".
Proof.
  intros Hr. revert k session.
  induction Hr as [fs|prop request st _ IH|fs st _ IH]; intros k session.
  - cbn. by rewrite lookup_empty.
  - destruct (handle_lookup prop request st k)
      as [(s0&_&_&Hnew&_&Hc&He)|[(s0&_&_&Hs0&Hnew)|[(_&_&Hnew)|Hsame]]].
    + rewrite Hnew. intros [= <-]. split; [|done].
      rewrite Hc. apply openDiff_content_clean.
    + rewrite Hnew. intros [= <-]. destruct (IH _ _ Hs0) as [? ?].
      split; [|done]. by apply applyEdits_loop_clean.
    + by rewrite Hnew.
    + rewrite Hsame. apply IH.
  - apply IH.
Qed.

Lemma closed_key_stays_free calls st n :
  diffSessions st !! diff_id_of h n = None →
  (n ≤ diffCounter st)%N →
  diffSessions (run h calls st).1 !! diff_id_of h n = None.
Proof.
  revert st. induction calls as [|[prop request] rest IH]; intros st Hnone Hn.
  { done. }
  rewrite run_cons. cbn [fst]. apply IH.
  - destruct (handle_lookup prop request st (diff_id_of h n))
      as [(?&_&Heq&_)|[(?&_&_&?&_)|[(_&_&Hnew)|Hsame]]].
    + apply diff_id_of_inj in Heq. lia.
    + congruence.
    + done.
    + by rewrite Hsame.
  - pose proof (counter_monotone prop request st). lia.
Qed.

(** X7: a closed session never comes back: once [closeDiff] has removed an
    ID of the table, no later run of calls, [openDiff] included, puts a
    session under that ID again. *)
Theorem closed_session_stays_closed request st k calls :
  reachable h st →
  is_Some (diffSessions st !! k) →
  request ≫= req_diff_id = Some k →
  diffSessions (run h calls (handle h "closeDiff" request st).1).1 !! k = None.
Proof.
  intros Hr Hk Hreq.
  destruct (reachable_keys h st Hr k Hk) as [n [-> Hn]].
  apply closed_key_stays_free.
  - rewrite handle_closeDiff. unfold closeDiff. rewrite Hreq. cbn.
    apply lookup_delete_eq.
  - pose proof (counter_monotone "closeDiff" request st). lia.
Qed.

(** X8: [openDiff] followed by [closeDiff] of the returned ID gives the
    table back as it was; only the counter has gone up by one, so the ID is
    spent. *)
Theorem open_then_close_restores_table request st :
  reachable h st →
  ∃ id,
    (handle h "openDiff" request st).2 = Callback None [("diff_id", VStr id)]
    ∧ ∀ close_request,
        close_request ≫= req_diff_id = Some id →
        handle h "closeDiff" close_request (handle h "openDiff" request st).1
        = ({| diffSessions := diffSessions st;
              diffCounter := (diffCounter st + 1)%N;
              disk := disk st |},
           Callback None []).
Proof.
  intros Hr. rewrite handle_openDiff. unfold openDiff. cbn [fst snd].
  eexists. split; [reflexivity|]. intros close_request Hid.
  rewrite handle_closeDiff. unfold closeDiff. rewrite Hid.
  unfold set_sessions. cbn [diffSessions diffCounter disk].
  rewrite delete_insert_eq, delete_id by by apply next_id_free. done.
Qed.


End SessionLife.

(** *** More on edits *)

Section MoreEdits.

Context (h : Host).

Lemma set_content_id session : set_content session (content session) = session.
Proof. by destruct session. Qed.

Lemma set_content_twice session lines lines' :
  set_content (set_content session lines) lines' = set_content session lines'.
Proof. done. Qed.

Lemma applyEdits_loop_app lines edits edits' :
  applyEdits_loop lines (edits ++ edits')
  = applyEdits_loop (applyEdits_loop lines edits) edits'.
Proof. by rewrite !applyEdits_loop_foldl, foldl_app. Qed.

(** An in-range edit of one line by a text without line break is the
    update of that line. *)
Lemma applyEdit_one_line lines edit i :
  one_line_edit (length lines) edit i →
  applyEdit lines edit = <[i := edit_text edit]> lines.
Proof.
  intros (Hrange & Hi & Htext).
  rewrite applyEdit_nonneg by (rewrite Hrange; simpl; lia).
  rewrite Hrange. cbn [fst snd]. unfold Spec.new_lines. fold (edit_text edit).
  rewrite (String_split_line _ Htext), insert_take_drop by done.
  rewrite Nat2Z.id. unfold Spec.range_size. do 3 f_equal. lia.
Qed.

Lemma applyEdit_nonempty lines edit : applyEdit lines edit ≠ [].
Proof.
  unfold applyEdit, Js.Array_splice. intros Hnil.
  apply app_eq_nil in Hnil as [_ Hnil]. apply app_eq_nil in Hnil as [Hnil _].
  by apply String_split_nonempty in Hnil.
Qed.

Lemma applyEdits_loop_nonempty lines edits :
  edits ≠ [] → applyEdits_loop lines edits ≠ [].
Proof.
  revert lines. induction edits as [|e es IH]; intros lines Hne; [done|].
  cbn [applyEdits_loop]. destruct es as [|e' es'].
  - apply applyEdit_nonempty.
  - by apply IH.
Qed.


(** X11: two such one-line edits on different lines can be sent in either
    order: both calls leave the same state. *)
Theorem one_line_edits_commute request request' st k session edit1 edit2 i j :
  request ≫= req_diff_id = Some k →
  request' ≫= req_diff_id = Some k →
  diffSessions st !! k = Some session →
  request ≫= req_edits = Some [edit1; edit2] →
  request' ≫= req_edits = Some [edit2; edit1] →
  one_line_edit (length (content session)) edit1 i →
  one_line_edit (length (content session)) edit2 j →
  i ≠ j →
  handle h "applyEdits" request st = handle h "applyEdits" request' st.
Proof.
  intros Hk Hk' Hs He He' H1 H2 Hij. rewrite !handle_applyEdits.
  rewrite (applyEdits_found _ _ _ _ Hk Hs), (applyEdits_found _ _ _ _ Hk' Hs).
  rewrite He, He'. cbn [Js.nullish applyEdits_loop].
  rewrite (applyEdit_one_line (content session) edit1 i),
    (applyEdit_one_line (content session) edit2 j) by done.
  rewrite (applyEdit_one_line _ edit2 j), (applyEdit_one_line _ edit1 i).
  - by rewrite list_insert_insert_ne.
  - destruct H1 as (?&?&?). repeat split; [done| |done]. by rewrite length_insert.
  - destruct H2 as (?&?&?). repeat split; [done| |done]. by rewrite length_insert.
Qed.

(** X12: two [applyEdits] calls on the same ID, one after the other, leave
    the state that one call with the two lists of edits appended leaves,
    whether the session exists or not. *)
Theorem applyEdits_calls_compose request1 request2 request12 st :
  request2 ≫= req_diff_id = request1 ≫= req_diff_id →
  request12 ≫= req_diff_id = request1 ≫= req_diff_id →
  Js.nullish (request12 ≫= req_edits) []
  = Js.nullish (request1 ≫= req_edits) [] ++ Js.nullish (request2 ≫= req_edits) [] →
  handle h "applyEdits" request2 (handle h "applyEdits" request1 st).1
  = handle h "applyEdits" request12 st.
Proof.
  intros H2 H12 Hedits. rewrite !handle_applyEdits.
  unfold applyEdits. rewrite H2, H12, Hedits. unfold get_session.
  destruct (request1 ≫= req_diff_id) as [k|]; [|done]. cbn [mbind option_bind].
  destruct (diffSessions st !! k) as [session|] eqn:Hs.
  - cbn [fst set_sessions diffSessions store_session].
    rewrite lookup_insert_eq. unfold set_sessions. cbn [diffSessions diffCounter disk].
    rewrite insert_insert_eq, applyEdits_loop_app. done.
  - cbn [fst]. by rewrite Hs.
Qed.

(** X13: [applyEdits] without edits (the list is missing or empty) leaves
    the state as it is, also for a session that exists. *)
Theorem applyEdits_without_edits request st :
  Js.nullish (request ≫= req_edits) [] = [] →
  handle h "applyEdits" request st = (st, Callback None []).
Proof.
  intros Hnone. rewrite handle_applyEdits. unfold applyEdits. rewrite Hnone.
  unfold get_session. destruct (request ≫= req_diff_id) as [k|]; [|done].
  cbn [mbind option_bind]. destruct (diffSessions st !! k) as [session|] eqn:Hs; [|done].
  cbn [applyEdits_loop store_session]. rewrite set_content_id.
  by rewrite insert_id, set_sessions_id.
Qed.


(** X15: after an [applyEdits] with at least one edit the session has at
    least one line: no edit, whatever its range and text, leaves the
    content empty. *)
Theorem edited_session_is_never_empty request st k session :
  request ≫= req_diff_id = Some k →
  diffSessions st !! k = Some session →
  Js.nullish (request ≫= req_edits) [] ≠ [] →
  ∃ session',
    get_session (handle h "applyEdits" request st).1 (Some k) = Some session'
    ∧ content session' ≠ [].
Proof.
  intros Hk Hs Hne. eexists. split; [by apply applyEdits_content|].
  cbn [content set_content]. rewrite <-applyEdits_loop_foldl.
  by apply applyEdits_loop_nonempty.
Qed.

(** X21: of two one-line edits on the same line in one call the later one
    wins, so the order of the edits matters as soon as their texts
    differ. *)
Theorem later_edit_of_a_line_wins request request' st k session edit1 edit2 i :
  request ≫= req_diff_id = Some k →
  request' ≫= req_diff_id = Some k →
  diffSessions st !! k = Some session →
  request ≫= req_edits = Some [edit1; edit2] →
  request' ≫= req_edits = Some [edit2; edit1] →
  one_line_edit (length (content session)) edit1 i →
  one_line_edit (length (content session)) edit2 i →
  get_session (handle h "applyEdits" request st).1 (Some k)
  = Some (set_content session (<[i := edit_text edit2]> (content session)))
  ∧ (edit_text edit1 ≠ edit_text edit2 →
     get_session (handle h "applyEdits" request st).1 (Some k)
     ≠ get_session (handle h "applyEdits" request' st).1 (Some k)).
Proof.
  intros Hk Hk' Hs He He' H1 H2.
  assert (∀ e e', one_line_edit (length (content session)) e i →
            one_line_edit (length (content session)) e' i →
            foldl applyEdit (content session) [e; e']
            = <[i := edit_text e']> (content session)) as Hlast.
  { intros e e' Hone Hone'. cbn [foldl].
    rewrite (applyEdit_one_line (content session) e i) by done.
    rewrite (applyEdit_one_line _ e' i).
    - apply list_insert_insert_eq.
    - destruct Hone' as (?&?&?). repeat split; [done| |done].
      by rewrite length_insert. }
  rewrite (applyEdits_content h _ _ _ _ Hk Hs), He.
  rewrite (applyEdits_content h _ _ _ _ Hk' Hs), He'. cbn [Js.nullish].
  rewrite !Hlast by done. split; [done|].
  intros Hne [= Heq]. apply Hne.
  assert (<[i := edit_text edit2]> (content session) !! i
          = <[i := edit_text edit1]> (content session) !! i) as Hi
    by (by rewrite Heq).
  destruct H1 as (_&Hlen&_). rewrite !list_lookup_insert_eq in Hi by done.
  by injection Hi.
Qed.

End MoreEdits.

(** *** More on saving *)

Section MoreSaving.

Context (h : Host).

Lemma existsSync_true fs p : Fs.existsSync fs p = true ↔ is_Some (fs !! p).
Proof. unfold Fs.existsSync. apply bool_decide_eq_true. Qed.

Lemma writeFileSync_reads_back dirname fs p text fs' :
  Fs.writeFileSync dirname fs p text = Some fs' →
  (∃ r, fs' = <[p := Fs.File r true text]> fs
        ∧ (fs !! p = None ∧ r = true ∨ ∃ t, fs !! p = Some (Fs.File r true t))).
Proof.
  unfold Fs.writeFileSync. destruct (fs !! p) as [[|r [] t]|]; try done.
  - intros [= <-]. exists r. split; [done|]. right. by eexists.
  - destruct (fs !! dirname p) as [[]|]; try done.
    intros [= <-]. exists true. split; [done|]. by left.
Qed.

Lemma writeFileSync_again dirname fs p text fs' :
  Fs.writeFileSync dirname fs p text = Some fs' →
  Fs.writeFileSync dirname fs' p text = Some fs'.
Proof.
  intros (r & -> & _)%writeFileSync_reads_back. unfold Fs.writeFileSync.
  rewrite lookup_insert_eq. by rewrite insert_insert_eq.
Qed.

Lemma writeFileSync_keeps_exists dirname fs p text fs' q :
  Fs.writeFileSync dirname fs p text = Some fs' →
  Fs.existsSync fs q = true → Fs.existsSync fs' q = true.
Proof.
  intros (r & -> & _)%writeFileSync_reads_back. rewrite !existsSync_true.
  rewrite lookup_insert. by case_decide.
Qed.

Lemma writeFileSync_other dirname fs p text fs' q :
  Fs.writeFileSync dirname fs p text = Some fs' → q ≠ p → fs' !! q = fs !! q.
Proof.
  intros (r & -> & _)%writeFileSync_reads_back Hq. by rewrite lookup_insert_ne.
Qed.

Lemma mkdirSync_makes_dir dirname fs dir fs' :
  Fs.mkdirSync dirname fs dir = Some fs' → fs' !! dir = Some Fs.Dir.
Proof.
  unfold Fs.mkdirSync. destruct (forallb _ _); [|done]. intros [= <-].
  cbn [Fs.ancestors foldr]. apply lookup_insert_eq.
Qed.

Lemma saveDocument_write_target fs session :
  writable_target (path_dirname h) fs (originalPath session) →
  Fs.readFileSync (saveDocument_write h fs session) (originalPath session)
  = Some (Js.Array_join LF (content session)).
Proof.
  unfold saveDocument_write, Fs.readFileSync.
  intros [[[t Hp] Hdir]|[Hp Hdir]].
  - rewrite (proj2 (existsSync_true _ _) Hdir). unfold Fs.writeFileSync.
    rewrite Hp. by rewrite lookup_insert_eq.
  - rewrite (proj2 (existsSync_true _ _)) by (by rewrite Hdir).
    unfold Fs.writeFileSync. rewrite Hp, Hdir. by rewrite lookup_insert_eq.
Qed.

Lemma saveDocument_write_other_file fs session q r w text :
  q ≠ originalPath session →
  fs !! q = Some (Fs.File r w text) →
  saveDocument_write h fs session !! q = Some (Fs.File r w text).
Proof.
  intros Hq Hfile. unfold saveDocument_write.
  assert (∀ fs1, fs1 !! q = Some (Fs.File r w text) →
    match Fs.writeFileSync (path_dirname h) fs1 (originalPath session)
            (Js.Array_join LF (content session)) with
    | Some fs2 => fs2 | None => fs1 end !! q = Some (Fs.File r w text)) as Hw.
  { intros fs1 H1. destruct (Fs.writeFileSync _ _ _ _) eqn:Hwrite; [|done].
    by rewrite (writeFileSync_other _ _ _ _ _ q Hwrite). }
  destruct (Fs.existsSync fs _); [by apply Hw|].
  destruct (Fs.mkdirSync _ fs _) eqn:Hmk; [|done].
  apply Hw. by eapply mkdirSync_keeps_file.
Qed.

Lemma saveDocument_write_twice fs session :
  saveDocument_write h (saveDocument_write h fs session) session
  = saveDocument_write h fs session.
Proof.
  assert (∀ fs1, Fs.existsSync fs1 (path_dirname h (originalPath session)) = true →
    let fs2 := match Fs.writeFileSync (path_dirname h) fs1 (originalPath session)
                       (Js.Array_join LF (content session)) with
               | Some fs2 => fs2 | None => fs1 end in
    saveDocument_write h fs2 session = fs2) as Hw.
  { intros fs1 Hdir. cbv zeta. unfold saveDocument_write.
    destruct (Fs.writeFileSync _ fs1 _ _) as [fs2|] eqn:Hwrite.
    - rewrite (writeFileSync_keeps_exists _ _ _ _ _ _ Hwrite Hdir).
      by rewrite (writeFileSync_again _ _ _ _ _ Hwrite).
    - by rewrite Hdir, Hwrite. }
  destruct (Fs.existsSync fs (path_dirname h (originalPath session))) eqn:Hdir.
  { replace (saveDocument_write h fs session)
      with (match Fs.writeFileSync (path_dirname h) fs (originalPath session)
                    (Js.Array_join LF (content session)) with
            | Some fs2 => fs2 | None => fs end)
      by (unfold saveDocument_write; by rewrite Hdir).
    by apply Hw. }
  destruct (Fs.mkdirSync (path_dirname h) fs (path_dirname h (originalPath session)))
    as [fs1|] eqn:Hmk.
  - replace (saveDocument_write h fs session)
      with (match Fs.writeFileSync (path_dirname h) fs1 (originalPath session)
                    (Js.Array_join LF (content session)) with
            | Some fs2 => fs2 | None => fs1 end)
      by (unfold saveDocument_write; by rewrite Hdir, Hmk).
    apply Hw. apply existsSync_true. by rewrite (mkdirSync_makes_dir _ _ _ _ Hmk).
  - replace (saveDocument_write h fs session) with fs
      by (unfold saveDocument_write; by rewrite Hdir, Hmk).
    unfold saveDocument_write. by rewrite Hdir, Hmk.
Qed.

Lemma saveDocument_found request st k session :
  request ≫= req_diff_id = Some k →
  diffSessions st !! k = Some session →
  handle h "saveDocument" request st
  = (set_disk st (saveDocument_write h (disk st) session), Callback None []).
Proof.
  intros Hk Hs. rewrite handle_saveDocument. unfold saveDocument, get_session.
  rewrite Hk. cbn [mbind option_bind]. by rewrite Hs.
Qed.

Lemma handle_keeps_clean prop request st :
  sessions_clean st → sessions_clean (handle h prop request st).1.
Proof.
  intros Hclean k session.
  destruct (handle_lookup h prop request st k)
    as [(s0&_&_&Hnew&_&Hc&_)|[(s0&_&_&Hs0&Hnew)|[(_&_&Hnew)|Hsame]]].
  - rewrite Hnew. intros [= <-]. rewrite Hc. apply openDiff_content_clean.
  - rewrite Hnew. intros [= <-]. apply applyEdits_loop_clean. by eapply Hclean.
  - by rewrite Hnew.
  - rewrite Hsame. apply Hclean.
Qed.

Lemma reachable_clean st : reachable h st → sessions_clean st.
Proof.
  induction 1 as [fs|prop request st _ IH|fs st _ IH].
  - intros k session. cbn. by rewrite lookup_empty.
  - by apply handle_keeps_clean.
  - exact IH.
Qed.


(** X17: in a running server, saving a session that has at least one line
    and opening its file again gives a new session with the same lines
    and the same path. *)
Theorem reopen_after_save request open_request st k session :
  reachable h st →
  request ≫= req_diff_id = Some k →
  diffSessions st !! k = Some session →
  content session ≠ [] →
  writable_target (path_dirname h) (disk st) (originalPath session) →
  openDiff_fullPath h open_request = originalPath session →
  ∃ id session',
    (handle h "openDiff" open_request (handle h "saveDocument" request st).1).2
    = Callback None [("diff_id", VStr id)]
    ∧ get_session
        (handle h "openDiff" open_request
           (handle h "saveDocument" request st).1).1 (Some id)
      = Some session'
    ∧ content session' = content session
    ∧ originalPath session' = originalPath session.
Proof.
  intros Hr Hk Hs Hne Hw Hpath. rewrite (saveDocument_found _ _ _ _ Hk Hs).
  rewrite handle_openDiff. unfold openDiff. cbn [fst snd].
  eexists _, _. split; [reflexivity|]. split.
  { unfold get_session. cbn. apply lookup_insert_eq. }
  cbn [content originalPath set_disk disk]. split; [|done]. rewrite Hpath.
  rewrite (openDiff_content_read _ _ _ (saveDocument_write_target _ _ Hw)).
  apply String_split_Array_join; [done|]. by eapply reachable_clean.
Qed.


(** X19: [saveDocument] never alters a file other than the one of its
    session: every other file of the disk keeps its text and its
    permissions. *)
Theorem saveDocument_leaves_other_files request st q r w text :
  (∀ session, get_session st (request ≫= req_diff_id) = Some session →
     originalPath session ≠ q) →
  disk st !! q = Some (Fs.File r w text) →
  disk (handle h "saveDocument" request st).1 !! q = Some (Fs.File r w text).
Proof.
  intros Hother Hq. rewrite handle_saveDocument. unfold saveDocument.
  destruct (get_session st _) as [session|] eqn:Hs; [|done].
  cbn [fst set_disk disk]. apply saveDocument_write_other_file; [|done].
  intros ->. by eapply Hother.
Qed.

(** X20: saving twice is saving once: a second [saveDocument] on the same
    ID leaves the state the first one left. *)
Theorem saveDocument_twice request st :
  handle h "saveDocument" request (handle h "saveDocument" request st).1
  = handle h "saveDocument" request st.
Proof.
  rewrite !handle_saveDocument. unfold saveDocument.
  destruct (get_session st _) as [session|] eqn:Hs.
  - cbn [fst]. replace (get_session (set_disk st _) _) with (Some session)
      by (by rewrite <-Hs).
    unfold set_disk. cbn [diffSessions diffCounter disk].
    by rewrite saveDocument_write_twice.
  - cbn [fst]. by rewrite Hs.
Qed.

End MoreSaving.

(** ** The further properties on the example host *)

Lemma example_draft_session :
  diffSessions example_two_sessions !! draft_id = Some draft_session.
Proof. vm_compute. reflexivity. Qed.

Lemma example_two_sessions_reachable : reachable example_host example_two_sessions.
Proof. apply reachable_handle, example_opened_reachable. Qed.

Lemma example_notes_writable :
  writable_target Posix.dirname example_disk "/home/dev/cline/notes.txt".
Proof.
  left. split; [exists example_text|exists Fs.Dir]; vm_compute; reflexivity.
Qed.


Lemma static_methods_keep_state_witness :
  ("getMachineId" ∉ diff_methods)
  ∧ (handle example_host "getMachineId" None example_opened).1 = example_opened.
Proof.
  assert ("getMachineId" ∉ diff_methods) as Hnot.
  { apply (bool_decide_unpack _). vm_compute. exact I. }
  split; [exact Hnot|].
  apply (static_methods_keep_state example_host "getMachineId" None
           example_opened Hnot).
Defined.

Lemma disk_written_only_by_saveDocument_witness :
  disk (handle example_host "applyEdits"
          (request_diff example_id (Some [example_edit])) example_opened).1
  = example_disk.
Proof.
  destruct (disk_written_only_by_saveDocument example_host "applyEdits"
              (request_diff example_id (Some [example_edit])) example_opened)
    as (Hdisk & _ & _).
  rewrite Hdisk; [reflexivity|discriminate].
Defined.

Lemma applyEdits_touches_one_session_witness :
  diffSessions
    (handle example_host "applyEdits"
       (request_diff example_id (Some [example_edit])) example_two_sessions).1
    !! draft_id
  = Some draft_session.
Proof.
  destruct (applyEdits_touches_one_session example_host
              (request_diff example_id (Some [example_edit]))
              example_two_sessions) as (_ & Hother & _).
  rewrite (Hother draft_id); [exact example_draft_session|discriminate].
Defined.

Lemma session_keeps_its_path_witness :
  (∃ session',
     diffSessions
       (handle example_host "applyEdits"
          (request_diff example_id (Some [two_line_edit])) example_opened).1
       !! example_id = Some session'
     ∧ originalPath session' = "/home/dev/cline/notes.txt"
     ∧ encoding session' = "utf8")
  ∨ ("applyEdits" = "closeDiff"
     ∧ request_diff example_id (Some [two_line_edit]) ≫= req_diff_id
       = Some example_id
     ∧ diffSessions
         (handle example_host "applyEdits"
            (request_diff example_id (Some [two_line_edit])) example_opened).1
         !! example_id = None).
Proof.
  apply (session_keeps_its_path example_host "applyEdits"
           (request_diff example_id (Some [two_line_edit]))
           example_opened example_id example_session).
  - exact example_opened_reachable.
  - exact example_opened_session.
Defined.

Lemma reachable_sessions_clean_witness :
  clean_lines ["a"; "b"; "c"] ∧ encoding example_session = "utf8".
Proof.
  apply (reachable_sessions_clean example_host example_opened example_id
           example_session).
  - exact example_opened_reachable.
  - exact example_opened_session.
Defined.

Lemma closed_session_stays_closed_witness :
  diffSessions
    (run example_host
       [("openDiff", request_path "notes.txt");
        ("applyEdits", request_diff example_id (Some [example_edit]))]
       (handle example_host "closeDiff" (request_diff example_id None)
          example_opened).1).1 !! example_id = None.
Proof.
  apply (closed_session_stays_closed example_host
           (request_diff example_id None) example_opened example_id).
  - exact example_opened_reachable.
  - rewrite example_opened_session. by eexists.
  - reflexivity.
Defined.

Lemma open_then_close_restores_table_witness :
  ∃ id,
    (handle example_host "openDiff" (request_path "notes.txt") example_opened).2
    = Callback None [("diff_id", VStr id)]
    ∧ ∀ close_request,
        close_request ≫= req_diff_id = Some id →
        handle example_host "closeDiff" close_request
          (handle example_host "openDiff" (request_path "notes.txt")
             example_opened).1
        = ({| diffSessions := diffSessions example_opened;
              diffCounter := (diffCounter example_opened + 1)%N;
              disk := disk example_opened |},
           Callback None []).
Proof.
  apply (open_then_close_restores_table example_host (request_path "notes.txt")
           example_opened).
  exact example_opened_reachable.
Defined.

Lemma one_line_edit_example : one_line_edit 3 example_edit 1.
Proof. split; [reflexivity|split; [lia|reflexivity]]. Qed.

Lemma one_line_edit_second : one_line_edit 3 second_edit 2.
Proof. split; [reflexivity|split; [lia|reflexivity]]. Qed.

Lemma one_line_edit_third : one_line_edit 3 third_edit 2.
Proof. split; [reflexivity|split; [lia|reflexivity]]. Qed.


Lemma one_line_edits_commute_witness :
  handle example_host "applyEdits"
    (request_diff example_id (Some [example_edit; second_edit])) example_opened
  = handle example_host "applyEdits"
      (request_diff example_id (Some [second_edit; example_edit])) example_opened.
Proof.
  apply (one_line_edits_commute example_host _ _ example_opened example_id
           example_session example_edit second_edit 1 2).
  - reflexivity.
  - reflexivity.
  - exact example_opened_session.
  - reflexivity.
  - reflexivity.
  - exact one_line_edit_example.
  - exact one_line_edit_second.
  - lia.
Defined.

Lemma later_edit_of_a_line_wins_witness :
  get_session
    (handle example_host "applyEdits"
       (request_diff example_id (Some [second_edit; third_edit])) example_opened).1
    (Some example_id)
  = Some (set_content example_session ["a"; "b"; "D"]).
Proof.
  apply (later_edit_of_a_line_wins example_host
           (request_diff example_id (Some [second_edit; third_edit]))
           (request_diff example_id (Some [third_edit; second_edit]))
           example_opened example_id example_session second_edit third_edit 2).
  - reflexivity.
  - reflexivity.
  - exact example_opened_session.
  - reflexivity.
  - reflexivity.
  - exact one_line_edit_second.
  - exact one_line_edit_third.
Defined.

Lemma applyEdits_calls_compose_witness :
  handle example_host "applyEdits" (request_diff example_id (Some [two_line_edit]))
    (handle example_host "applyEdits"
       (request_diff example_id (Some [example_edit])) example_opened).1
  = handle example_host "applyEdits"
      (request_diff example_id (Some [example_edit; two_line_edit]))
      example_opened.
Proof.
  apply (applyEdits_calls_compose example_host
           (request_diff example_id (Some [example_edit]))
           (request_diff example_id (Some [two_line_edit]))
           (request_diff example_id (Some [example_edit; two_line_edit]))
           example_opened); reflexivity.
Defined.

Lemma applyEdits_without_edits_witness :
  handle example_host "applyEdits" (request_diff example_id None) example_opened
  = (example_opened, Callback None []).
Proof.
  apply (applyEdits_without_edits example_host (request_diff example_id None)
           example_opened).
  reflexivity.
Defined.


Lemma edited_session_is_never_empty_witness :
  ∃ session',
    get_session
      (handle example_host "applyEdits"
         (request_diff draft_id (Some [empty_edit])) example_two_sessions).1
      (Some draft_id) = Some session'
    ∧ content session' ≠ [].
Proof.
  apply (edited_session_is_never_empty example_host
           (request_diff draft_id (Some [empty_edit]))
           example_two_sessions draft_id draft_session).
  - reflexivity.
  - exact example_draft_session.
  - discriminate.
Defined.


Lemma reopen_after_save_witness :
  ∃ id session',
    (handle example_host "openDiff" (request_path "notes.txt")
       (handle example_host "saveDocument" (request_diff example_id None)
          example_opened).1).2
    = Callback None [("diff_id", VStr id)]
    ∧ get_session
        (handle example_host "openDiff" (request_path "notes.txt")
           (handle example_host "saveDocument" (request_diff example_id None)
              example_opened).1).1 (Some id)
      = Some session'
    ∧ content session' = ["a"; "b"; "c"]
    ∧ originalPath session' = "/home/dev/cline/notes.txt".
Proof.
  apply (reopen_after_save example_host (request_diff example_id None)
           (request_path "notes.txt") example_opened example_id example_session).
  - exact example_opened_reachable.
  - reflexivity.
  - exact example_opened_session.
  - discriminate.
  - exact example_notes_writable.
  - vm_compute. reflexivity.
Defined.


Lemma saveDocument_leaves_other_files_witness :
  disk (handle example_host "saveDocument" (request_diff draft_id None)
          example_two_sessions).1 !! "/home/dev/cline/notes.txt"
  = Some (Fs.File true true example_text).
Proof.
  apply (saveDocument_leaves_other_files example_host
           (request_diff draft_id None) example_two_sessions).
  - intros session Hsession. vm_compute in Hsession.
    injection Hsession as <-. discriminate.
  - vm_compute. reflexivity.
Defined.

(** ** The bytes that a save after an open writes *)

Section Bytes.

Context (h : Host).






(** *** The handlers' disk is the view of the bytes *)










End Bytes.

(** ** The bytes on the example disk *)


